(** * hishel: the cache controller ([hishel/_controller.py])

    A shallow embedding of [Controller] and of the helpers it calls, and
    the properties of the controller's decisions.

    Python [bytes] and [str] values are both [string]: a Rocq character
    is one byte.  An operation that can raise returns a [result]; the
    request, which [make_request_conditional] mutates in place, is
    passed in and returned explicitly. *)

From Stdlib Require Import ZArith QArith Qround List Bool Lia.
From Stdlib Require String Ascii.
From stdpp Require Import base strings gmap.
Import (notations) Stdlib.Strings.Ascii.

Local Open Scope Z_scope.

(** ** Exceptions and fallible computations *)

Inductive exn : Type :=
| IndexError
| TypeError
| UnicodeDecodeError
| DateParseError.

Inductive result (A : Type) : Type :=
| Ok (a : A)
| Raise (e : exn).

Arguments Ok {A} a.
Arguments Raise {A} e.

Definition bind {A B : Type} (m : result A) (k : A -> result B) : result B :=
  match m with
  | Ok a => k a
  | Raise e => Raise e
  end.

Notation "'let*' x ':=' m 'in' k" := (bind m (fun x => k))
  (at level 10, x name, m at level 100, k at level 200).

(** ** Byte strings *)

(** One byte of [bytes.lower()]: [A]..[Z] go to [a]..[z], every other
    byte is kept. *)
Definition lower_byte (c : Ascii.ascii) : Ascii.ascii :=
  let n := Ascii.N_of_ascii c in
  if ((65 <=? n) && (n <=? 90))%N then Ascii.ascii_of_N (n + 32) else c.

Fixpoint lower (s : string) : string :=
  match s with
  | EmptyString => EmptyString
  | String c s' => String (lower_byte c) (lower s')
  end.

(** [bytes.decode('ascii')]: a byte above 127 raises. *)
Fixpoint decode_ascii (b : string) : result string :=
  match b with
  | EmptyString => Ok EmptyString
  | String c b' =>
      if (Ascii.N_of_ascii c <? 128)%N
      then let* s := decode_ascii b' in Ok (String c s)
      else Raise UnicodeDecodeError
  end.

(** [l[0]] on a Python list. *)
Definition getitem0 {A : Type} (l : list A) : result A :=
  match l with
  | x :: _ => Ok x
  | [] => Raise IndexError
  end.

(** [any(l)] on a list of booleans. *)
Definition any (l : list bool) : bool := existsb (fun b => b) l.

(** [not x] for a byte string or a list: empty values are false. *)
Definition truthy (s : string) : bool :=
  match s with
  | EmptyString => false
  | String _ _ => true
  end.

(** ** Messages (the fields of [httpcore.Request] and [httpcore.Response]
    that the controller reads or writes) *)

Definition header : Type := (string * string)%type.

Record Request : Type := {
  request_method : string;
  request_headers : list header
}.

Record Response : Type := {
  response_status : Z;
  response_headers : list header
}.

(** ** Header utilities ([hishel/_utils.py]) *)

Definition same_name (a b : string) : bool := String.eqb (lower a) (lower b).

(** Modelled from the spec: [extract_header_values] of [hishel/_utils.py]
    is not among the sources.  It "returns all values for a
    case-insensitively matching name, in original order; if [single] is
    set, returns at most one (the first match)". *)
Fixpoint extract_header_values (headers : list header) (header_key : string)
    (single : bool) : list string :=
  match headers with
  | [] => []
  | (key, value) :: rest =>
      if same_name key header_key
      then value :: (if single then [] else extract_header_values rest header_key single)
      else extract_header_values rest header_key single
  end.

(** Modelled from the spec: [extract_header_values_decoded] of
    [hishel/_utils.py] is not among the sources.  It is
    [extract_header_values] with each value decoded to text; the spec
    names no failure of that decoding, so every byte is taken to the
    character with the same code. *)
Definition extract_header_values_decoded (headers : list header)
    (header_key : string) (single : bool) : list string :=
  map (fun value => value) (extract_header_values headers header_key single).

(** Modelled from the spec: [header_presents] of [hishel/_utils.py] is not
    among the sources.  It is a "case-insensitive membership test". *)
Definition header_presents (headers : list header) (header_key : string) : bool :=
  existsb (fun kv => same_name (fst kv) header_key) headers.

(** The value of the first pair of [headers] named [name], if any: what
    the spec calls "the stored Last-Modified value", "the Date header". *)
Definition first_value (headers : list header) (name : string) : option string :=
  option_map snd (find (fun kv => same_name (fst kv) name) headers).

(** ** Cache-Control directives ([hishel/_headers.py]) *)

Record CacheControl : Type := {
  no_store : bool;
  no_cache : bool;
  public : bool;
  private : bool;
  must_revalidate : bool;
  max_age : option Z;
  s_maxage : option Z
}.

Definition no_directives : CacheControl :=
  {| no_store := false; no_cache := false; public := false; private := false;
     must_revalidate := false; max_age := None; s_maxage := None |}.

Definition is_blank (c : Ascii.ascii) : bool :=
  orb (Ascii.eqb c " "%char) (Ascii.eqb c "009"%char).

Fixpoint lstrip (s : string) : string :=
  match s with
  | String c s' => if is_blank c then lstrip s' else s
  | EmptyString => EmptyString
  end.

Definition strip (s : string) : string :=
  String.rev (lstrip (String.rev (lstrip s))).

Fixpoint split_on (sep : Ascii.ascii) (s : string) : list string :=
  match s with
  | EmptyString => [EmptyString]
  | String c s' =>
      if Ascii.eqb c sep then EmptyString :: split_on sep s'
      else match split_on sep s' with
           | [] => [String c EmptyString]
           | piece :: pieces => String c piece :: pieces
           end
  end.

Definition digit_value (c : Ascii.ascii) : option Z :=
  let n := Ascii.N_of_ascii c in
  if ((48 <=? n) && (n <=? 57))%N then Some (Z.of_N n - 48) else None.

Fixpoint digits_value (acc : Z) (s : string) : option Z :=
  match s with
  | EmptyString => Some acc
  | String c s' =>
      match digit_value c with
      | Some d => digits_value (10 * acc + d) s'
      | None => None
      end
  end.

(** A decimal integer: digits, after an optional minus sign. *)
Definition parse_int (s : string) : option Z :=
  match s with
  | EmptyString => None
  | String c s' =>
      if Ascii.eqb c "-"%char
      then match s' with
           | EmptyString => None
           | _ => option_map Z.opp (digits_value 0 s')
           end
      else digits_value 0 s
  end.

(** Splits [token] at its first [=]. *)
Fixpoint name_and_value (token : string) : string * option string :=
  match token with
  | EmptyString => (EmptyString, None)
  | String c rest =>
      if Ascii.eqb c "="%char then (EmptyString, Some rest)
      else let '(name, value) := name_and_value rest in (String c name, value)
  end.

Definition set_bool (cc : CacheControl) (name : string) : CacheControl :=
  if String.eqb name "no-store" then
    {| no_store := true; no_cache := no_cache cc; public := public cc;
       private := private cc; must_revalidate := must_revalidate cc;
       max_age := max_age cc; s_maxage := s_maxage cc |}
  else if String.eqb name "no-cache" then
    {| no_store := no_store cc; no_cache := true; public := public cc;
       private := private cc; must_revalidate := must_revalidate cc;
       max_age := max_age cc; s_maxage := s_maxage cc |}
  else if String.eqb name "public" then
    {| no_store := no_store cc; no_cache := no_cache cc; public := true;
       private := private cc; must_revalidate := must_revalidate cc;
       max_age := max_age cc; s_maxage := s_maxage cc |}
  else if String.eqb name "private" then
    {| no_store := no_store cc; no_cache := no_cache cc; public := public cc;
       private := true; must_revalidate := must_revalidate cc;
       max_age := max_age cc; s_maxage := s_maxage cc |}
  else if String.eqb name "must-revalidate" then
    {| no_store := no_store cc; no_cache := no_cache cc; public := public cc;
       private := private cc; must_revalidate := true;
       max_age := max_age cc; s_maxage := s_maxage cc |}
  else cc.

Definition set_int (cc : CacheControl) (name : string) (n : Z) : CacheControl :=
  if String.eqb name "max-age" then
    {| no_store := no_store cc; no_cache := no_cache cc; public := public cc;
       private := private cc; must_revalidate := must_revalidate cc;
       max_age := Some n; s_maxage := s_maxage cc |}
  else if String.eqb name "s-maxage" then
    {| no_store := no_store cc; no_cache := no_cache cc; public := public cc;
       private := private cc; must_revalidate := must_revalidate cc;
       max_age := max_age cc; s_maxage := Some n |}
  else cc.

Definition parse_directive (cc : CacheControl) (token : string) : CacheControl :=
  match name_and_value (strip token) with
  | (name, None) => set_bool cc (lower (strip name))
  | (name, Some value) =>
      match parse_int (strip value) with
      | Some n => set_int cc (lower (strip name)) n
      | None => cc
      end
  end.

(** Modelled from the spec: [CacheControl.from_value] of
    [hishel/_headers.py] is not among the sources.  It must "split on
    commas, trim whitespace, and parse each token as either a bare flag
    or a name=value pair"; unknown tokens and values that are not
    integers are ignored, names are matched case-insensitively, and no
    input makes it fail. *)
Definition parse_cache_control (raw_values : list string) : CacheControl :=
  fold_left parse_directive (concat (map (split_on ","%char) raw_values)) no_directives.

(** ** HTTP dates ([hishel/_utils.py]) *)

Definition month_number (name : string) : option Z :=
  if String.eqb name "Jan" then Some 1 else if String.eqb name "Feb" then Some 2
  else if String.eqb name "Mar" then Some 3 else if String.eqb name "Apr" then Some 4
  else if String.eqb name "May" then Some 5 else if String.eqb name "Jun" then Some 6
  else if String.eqb name "Jul" then Some 7 else if String.eqb name "Aug" then Some 8
  else if String.eqb name "Sep" then Some 9 else if String.eqb name "Oct" then Some 10
  else if String.eqb name "Nov" then Some 11 else if String.eqb name "Dec" then Some 12
  else None.

(** Days from 1970-01-01 to the given day of the proleptic Gregorian
    calendar. *)
Definition days_from_civil (y m d : Z) : Z :=
  let y' := if m <=? 2 then y - 1 else y in
  let era := y' / 400 in
  let yoe := y' - era * 400 in
  let doy := (153 * (if 2 <? m then m - 3 else m + 9) + 2) / 5 + d - 1 in
  let doe := yoe * 365 + yoe / 4 - yoe / 100 + doy in
  era * 146097 + doe - 719468.

Definition field (text : string) (start len : nat) : option Z :=
  let s := String.substring start len text in
  if Nat.eqb (String.length s) len
  then match s with EmptyString => None | _ => digits_value 0 s end
  else None.

(** Modelled from the spec: [parse_date] of [hishel/_utils.py] is not
    among the sources.  It "parses an HTTP-date value ... into a
    Unix-epoch integer" and "fails with a DateParseError on unrecognized
    formats".  This model recognises the IMF-fixdate format,
    [Sun, 06 Nov 1994 08:49:37 GMT], and no other. *)
Definition parse_imf_fixdate (text : string) : result Z :=
  let shape :=
    Nat.eqb (String.length text) 29
    && String.eqb (String.substring 3 2 text) ", "
    && String.eqb (String.substring 7 1 text) " "
    && String.eqb (String.substring 11 1 text) " "
    && String.eqb (String.substring 16 1 text) " "
    && String.eqb (String.substring 19 1 text) ":"
    && String.eqb (String.substring 22 1 text) ":"
    && String.eqb (String.substring 25 4 text) " GMT" in
  match field text 5 2, month_number (String.substring 8 3 text), field text 12 4,
        field text 17 2, field text 20 2, field text 23 2 with
  | Some d, Some m, Some y, Some hh, Some mm, Some ss =>
      if shape && (1 <=? d) && (d <=? 31) && (hh <? 24) && (mm <? 60) && (ss <? 61)
      then Ok (days_from_civil y m d * 86400 + hh * 3600 + mm * 60 + ss)
      else Raise DateParseError
  | _, _, _, _, _, _ => Raise DateParseError
  end.

(** ** The controller ([hishel/_controller.py]) *)

Definition HEURISTICALLY_CACHABLE : list Z :=
  [200; 203; 204; 206; 300; 301; 308; 404; 405; 410; 414; 501].

Record Controller : Type := {
  _cacheable_methods : list string;
  _cacheable_status_codes : list Z
}.

(** [Controller.__init__]: [None] and the empty list both select the
    default. *)
Definition Controller_init (cacheable_methods : option (list string))
    (cacheable_status_codes : option (list Z)) : Controller :=
  {| _cacheable_methods :=
       match cacheable_methods with
       | Some (m :: ms) => m :: ms
       | _ => ["GET"]
       end;
     _cacheable_status_codes :=
       match cacheable_status_codes with
       | Some (c :: cs) => c :: cs
       | _ => [200]
       end |}.

(** What [construct_response_from_cache] hands back: the stored response
    it was given, the request it was given, or the class
    [httpcore.Request] itself. *)
Inductive returned : Type :=
| the_response
| the_request
| the_Request_class.

(** [age > freshness_lifetime]: ordering an [int] against [None] raises
    [TypeError]. *)
Definition int_gt_optional (age : Z) (freshness_lifetime : option Z) : result bool :=
  match freshness_lifetime with
  | Some lifetime => Ok (lifetime <? age)
  | None => Raise TypeError
  end.

(** [int(x)]: truncation toward zero. *)
Definition int_of (x : Q) : Z := Z.quot (Qnum x) (Zpos (Qden x)).

(** [max(0, x)]. *)
Definition max0 (x : Q) : Q := if Qle_bool x 0 then 0%Q else x.

(** ** Concrete messages *)

Definition default_controller : Controller := Controller_init None None.

Definition epoch : string := "Thu, 01 Jan 1970 00:00:00 GMT".

Definition plain_request : Request :=
  {| request_method := "GET"; request_headers := [("Host", "example.org")] |}.

(** Lifetime 100 from [max-age], revalidation demanded, both validators. *)
Definition must_revalidate_response : Response :=
  {| response_status := 200;
     response_headers :=
       [("Date", epoch); ("Cache-Control", "max-age=100, must-revalidate");
        ("ETag", "v1"); ("Last-Modified", epoch)] |}.

(** Neither [max-age] nor [Expires]: no lifetime can be computed. *)
Definition dated_response : Response :=
  {| response_status := 200; response_headers := [("Date", epoch)] |}.

(** Status 202 is not heuristically cacheable; [Expires] is the only
    reason to store this response. *)
Definition expiring_response : Response :=
  {| response_status := 202;
     response_headers := [("Date", epoch); ("Expires", "Thu, 01 Jan 1970 01:00:00 GMT")] |}.

Definition misspelt_response : Response :=
  {| response_status := 202;
     response_headers := [("Date", epoch); ("Expiers", "Thu, 01 Jan 1970 01:00:00 GMT")] |}.


Definition undated_expiring_response : Response :=
  {| response_status := 200;
     response_headers := [("Expires", "Thu, 01 Jan 1970 01:00:00 GMT")] |}.


Definition empty_validator_response : Response :=
  {| response_status := 200; response_headers := [("Last-Modified", ""); ("ETag", "v1")] |}.

(** The precondition header the spec asks for: one pair when the stored
    validator has a non-empty value, none otherwise. *)
Definition precondition (name : string) (stored : option string) : list header :=
  match stored with
  | Some (String c v) => [(name, String c v)]
  | _ => []
  end.

(** No header of this list is named [Content-Length], in any case. *)
Definition free_of_content_length (headers : list header) : Prop :=
  Forall (fun kv => same_name (fst kv) "Content-Length" = false) headers.

(** Every byte of [b] is below 128: [b.decode('ascii')] succeeds. *)
Definition ascii_only (b : string) : Prop :=
  Forall (fun c => (Ascii.N_of_ascii c < 128)%N) (String.list_ascii_of_string b).

(** The test both loops of [get_updated_headers] put on a key:
    [key.lower() != b'content-length']. *)
Definition kept (key : string) : bool :=
  negb (String.eqb (lower key) "content-length").

(** The values the first loop of [get_updated_headers] gives a key: the
    new ones when there are any, the stored ones otherwise. *)
Definition merged_values (stored new : list header) (key : string) : list string :=
  match extract_header_values new key false with
  | [] => extract_header_values stored key false
  | value :: values => value :: values
  end.

(** The names of a header list, lowered. *)
Definition lowered_names (headers : list header) : list string :=
  map (fun item => lower (fst item)) headers.

Definition non_ascii_request : Request :=
  {| request_method := String (Ascii.ascii_of_N 200) "ET"; request_headers := [] |}.

Definition lowercase_request : Request :=
  {| request_method := "get"; request_headers := [] |}.

Definition no_cache_response : Response :=
  {| response_status := 200;
     response_headers := [("Cache-Control", "no-cache"); ("ETag", "v1")] |}.

Definition zero_max_age_response : Response :=
  {| response_status := 202;
     response_headers := [("Cache-Control", "max-age=0")] |}.

Definition stale_allowed_response : Response :=
  {| response_status := 200;
     response_headers := [("Date", epoch); ("Cache-Control", "max-age=100")] |}.

(** A [Date] of 784111777 seconds after the epoch. *)
Definition archived_response : Response :=
  {| response_status := 200;
     response_headers := [("Date", "Sun, 06 Nov 1994 08:49:37 GMT")] |}.

Definition misdated_response : Response :=
  {| response_status := 200; response_headers := [("Date", "yesterday")] |}.

Definition ok_response : Response :=
  {| response_status := 200;
     response_headers := [("ETag", "v3"); ("Content-Length", "5")] |}.

Definition stored_headers : list header :=
  [("ETag", "v1"); ("Content-Length", "5"); ("X-Custom", "1")].

Definition not_modified_response : Response :=
  {| response_status := 304;
     response_headers := [("ETag", "v2"); ("Content-Length", "0")] |}.

Section Controller.

(** [CacheControl.from_value] and [parse_date] are not among the
    sources: the controller is embedded over any implementation of
    them.  [parse_cache_control] and [parse_imf_fixdate] above are the
    instances used on concrete messages. *)
Variable from_value : list string -> CacheControl.
Variable parse_date : string -> result Z.

Definition is_cachable (self : Controller) (request : Request)
    (response : Response) : result bool :=
  let* method := decode_ascii (request_method request) in
  let response_cache_control :=
    from_value (extract_header_values_decoded (response_headers response) "cache-control" false) in
  if negb (existsb (String.eqb method) (_cacheable_methods self)) then Ok false
  else if response_status response / 100 =? 1 then Ok false
  else if no_store response_cache_control then Ok false
  else
    let expires_presents := header_presents (response_headers response) "expiers" in
    if negb (any [ public response_cache_control;
                   private response_cache_control;
                   expires_presents;
                   bool_decide (max_age response_cache_control <> None);
                   existsb (Z.eqb (response_status response)) HEURISTICALLY_CACHABLE ])
    then Ok false
    else Ok true.

(** The body of the first loop of [get_updated_headers]. *)
Definition merge_stored (stored_response_headers new_response_headers : list header)
    (state : list header * gset string) (item : header) : list header * gset string :=
  let '(updated_headers, checked) := state in
  let key := fst item in
  if bool_decide (key ∉ checked) && negb (String.eqb (lower key) "content-length") then
    let checked := {[ key ]} ∪ checked in
    match extract_header_values new_response_headers key false with
    | (_ :: _) as values => (updated_headers ++ map (pair key) values, checked)
    | [] =>
        let values := extract_header_values stored_response_headers key false in
        (updated_headers ++ map (pair key) values, checked)
    end
  else state.

(** The body of its second loop, which reads [checked] and never adds
    to it. *)
Definition merge_new (new_response_headers : list header) (checked : gset string)
    (updated_headers : list header) (item : header) : list header :=
  let key := fst item in
  if bool_decide (key ∉ checked) && negb (String.eqb (lower key) "content-length") then
    let values := extract_header_values new_response_headers key false in
    updated_headers ++ map (pair key) values
  else updated_headers.

Definition get_updated_headers (self : Controller)
    (stored_response_headers new_response_headers : list header) : list header :=
  let '(updated_headers, checked) :=
    fold_left (merge_stored stored_response_headers new_response_headers)
              stored_response_headers ([], ∅) in
  fold_left (merge_new new_response_headers checked) new_response_headers updated_headers.

Definition get_freshness_lifetime (self : Controller) (response : Response)
    : result (option Z) :=
  let response_cache_control :=
    from_value (extract_header_values_decoded (response_headers response) "Cache-Control" false) in
  match max_age response_cache_control with
  | Some n => Ok (Some n)
  | None =>
      if header_presents (response_headers response) "expires" then
        let* expires :=
          getitem0 (extract_header_values_decoded (response_headers response) "expires" true) in
        let* expires_timestamp := parse_date expires in
        let* date :=
          getitem0 (extract_header_values_decoded (response_headers response) "date" true) in
        let* date_timestamp := parse_date date in
        Ok (Some (expires_timestamp - date_timestamp))
      else Ok None
  end.

(** [now] is the reading of [time.time()], taken as an exact rational:
    the subtraction below is exact, where the code subtracts two binary64
    numbers. *)
Definition get_age (self : Controller) (now : Q) (response : Response) : result Z :=
  let* text :=
    getitem0 (extract_header_values_decoded (response_headers response) "date" false) in
  let* date := parse_date text in
  let apparent_age := max0 (now - inject_Z date) in
  Ok (int_of apparent_age).

(** Returns the request as the in-place [extend] leaves it. *)
Definition make_request_conditional (self : Controller) (request : Request)
    (response : Response) : result Request :=
  let* last_modified :=
    if header_presents (response_headers response) "last-modified"
    then let* v := getitem0 (extract_header_values (response_headers response) "last-modified" true) in
         Ok (Some v)
    else Ok None in
  let* etag :=
    if header_presents (response_headers response) "etag"
    then let* v := getitem0 (extract_header_values (response_headers response) "etag" true) in
         Ok (Some v)
    else Ok None in
  let precondition_headers : list header := [] in
  let precondition_headers :=
    match last_modified with
    | Some v => if truthy v then precondition_headers ++ [("If-Unmodified-Since", v)]
                else precondition_headers
    | None => precondition_headers
    end in
  let precondition_headers :=
    match etag with
    | Some v => if truthy v then precondition_headers ++ [("If-None-Match", v)]
                else precondition_headers
    | None => precondition_headers
    end in
  Ok {| request_method := request_method request;
        request_headers := request_headers request ++ precondition_headers |}.

Definition alloweed_stale (self : Controller) (response : Response) : bool :=
  let response_cache_control :=
    from_value (extract_header_values_decoded (response_headers response) "Cache-Control" false) in
  if no_cache response_cache_control then false
  else if must_revalidate response_cache_control then false
  else true.

(** The result pairs the request, as the call leaves it, with what the
    call returns. *)
Definition construct_response_from_cache (self : Controller) (now : Q)
    (request : Request) (response : Response) : result (Request * returned) :=
  let response_cache_control :=
    from_value (extract_header_values_decoded (response_headers response) "Cache-Control" false) in
  if no_cache response_cache_control then
    let* request := make_request_conditional self request response in
    Ok (request, the_request)
  else
    let* freshness_lifetime := get_freshness_lifetime self response in
    let* age := get_age self now response in
    let* is_fresh := int_gt_optional age freshness_lifetime in
    if is_fresh || alloweed_stale self response then Ok (request, the_response)
    else
      let* request := make_request_conditional self request response in
      Ok (request, the_Request_class).

(** The response returned: [old_response] with its headers replaced, or
    [new_response]. *)
Definition handle_validation_response (self : Controller)
    (old_response new_response : Response) : Response :=
  if response_status new_response =? 304 then
    {| response_status := response_status old_response;
       response_headers :=
         get_updated_headers self (response_headers old_response)
                             (response_headers new_response) |}
  else new_response.

(** The last test of [is_cachable], as one boolean: the five reasons
    for which a response may be stored. *)
Definition storable (response : Response) : bool :=
  let directives :=
    from_value (extract_header_values_decoded (response_headers response) "cache-control" false) in
  public directives || private directives
  || header_presents (response_headers response) "expiers"
  || bool_decide (max_age directives <> None)
  || existsb (Z.eqb (response_status response)) HEURISTICALLY_CACHABLE.

(** ** Header utilities *)

Lemma extract_header_values_decoded_eq headers name single :
  extract_header_values_decoded headers name single =
  extract_header_values headers name single.
Proof. unfold extract_header_values_decoded. apply map_id. Qed.

Lemma getitem0_extract headers name single :
  getitem0 (extract_header_values headers name single) =
  match first_value headers name with
  | Some v => Ok v
  | None => Raise IndexError
  end.
Proof.
  unfold first_value.
  induction headers as [| [key value] rest IH]; simpl; [reflexivity |].
  destruct (same_name key name); simpl; [reflexivity | exact IH].
Qed.

Lemma header_presents_first_value headers name :
  header_presents headers name =
  match first_value headers name with
  | Some _ => true
  | None => false
  end.
Proof.
  unfold header_presents, first_value.
  induction headers as [| [key value] rest IH]; simpl; [reflexivity |].
  destruct (same_name key name); simpl; [reflexivity | exact IH].
Qed.

(** ** [make_request_conditional] *)

Lemma make_request_conditional_eq self request response :
  make_request_conditional self request response =
  Ok {| request_method := request_method request;
        request_headers :=
          request_headers request
          ++ precondition "If-Unmodified-Since"
               (first_value (response_headers response) "last-modified")
          ++ precondition "If-None-Match"
               (first_value (response_headers response) "etag") |}.
Proof.
  unfold make_request_conditional.
  rewrite !header_presents_first_value, !getitem0_extract.
  destruct (first_value (response_headers response) "last-modified") as [[| c v] |];
    destruct (first_value (response_headers response) "etag") as [[| c' v'] |];
    reflexivity.
Qed.

(** C8, as the code has it: [make_request_conditional] never raises and
    keeps the method and every header of the request; it appends
    [If-Unmodified-Since] with the first stored [Last-Modified] value
    when that value is present and not empty, then [If-None-Match] with
    the first stored [ETag] value when that value is present and not
    empty, and leaves the request as it was when neither holds. *)
Theorem make_request_conditional_appends self request response :
  exists request',
    make_request_conditional self request response = Ok request' /\
    request_method request' = request_method request /\
    request_headers request' =
      request_headers request
      ++ precondition "If-Unmodified-Since"
           (first_value (response_headers response) "last-modified")
      ++ precondition "If-None-Match"
           (first_value (response_headers response) "etag") /\
    (precondition "If-Unmodified-Since"
       (first_value (response_headers response) "last-modified") = [] ->
     precondition "If-None-Match"
       (first_value (response_headers response) "etag") = [] ->
     request' = request).
Proof.
  eexists. split; [apply make_request_conditional_eq |].
  split; [reflexivity |]. split; [reflexivity |].
  intros -> ->. destruct request as [method headers]. simpl.
  by rewrite app_nil_r.
Qed.

(** ** [get_updated_headers] *)

Lemma free_of_content_length_extend key values headers :
  negb (String.eqb (lower key) "content-length") = true ->
  free_of_content_length headers ->
  free_of_content_length (headers ++ map (pair key) values).
Proof.
  intros Hkey Hfree. apply Forall_app. split; [exact Hfree |].
  apply negb_true_iff in Hkey.
  induction values as [| value values IH]; simpl; constructor; [exact Hkey | exact IH].
Qed.

Lemma merge_stored_free stored new state item :
  free_of_content_length (fst state) ->
  free_of_content_length (fst (merge_stored stored new state item)).
Proof.
  destruct state as [updated checked]. unfold merge_stored. simpl. intros Hfree.
  destruct (bool_decide (fst item ∉ checked)); simpl; [| exact Hfree].
  destruct (negb (String.eqb (lower (fst item)) "content-length")) eqn:Hkey;
    [| exact Hfree].
  destruct (extract_header_values new (fst item) false) as [| value values];
    cbn [fst].
  - by apply free_of_content_length_extend.
  - by apply (free_of_content_length_extend (fst item) (value :: values)).
Qed.

Lemma merge_new_free new checked updated item :
  free_of_content_length updated ->
  free_of_content_length (merge_new new checked updated item).
Proof.
  unfold merge_new. intros Hfree.
  destruct (bool_decide (fst item ∉ checked)); simpl; [| exact Hfree].
  destruct (negb (String.eqb (lower (fst item)) "content-length")) eqn:Hkey;
    [| exact Hfree].
  by apply free_of_content_length_extend.
Qed.

Lemma fold_merge_stored_free stored new items state :
  free_of_content_length (fst state) ->
  free_of_content_length (fst (fold_left (merge_stored stored new) items state)).
Proof.
  revert state. induction items as [| item items IH]; intros state Hfree; simpl.
  - exact Hfree.
  - apply IH. by apply merge_stored_free.
Qed.

Lemma fold_merge_new_free new checked items updated :
  free_of_content_length updated ->
  free_of_content_length (fold_left (merge_new new checked) items updated).
Proof.
  revert updated. induction items as [| item items IH]; intros updated Hfree; simpl.
  - exact Hfree.
  - apply IH. by apply merge_new_free.
Qed.

(** C9: whatever the stored and the new headers are, no pair of the
    list [get_updated_headers] returns is named [Content-Length],
    compared without regard to case. *)
Theorem get_updated_headers_excludes_content_length self
    (stored_response_headers new_response_headers : list header) :
  free_of_content_length
    (get_updated_headers self stored_response_headers new_response_headers).
Proof.
  unfold get_updated_headers.
  pose proof (fold_merge_stored_free stored_response_headers new_response_headers
                stored_response_headers ([], ∅)) as Hstored.
  destruct (fold_left _ stored_response_headers ([], ∅)) as [updated checked].
  apply fold_merge_new_free. apply Hstored. constructor.
Qed.

(** ** [get_freshness_lifetime] *)



(** ** [construct_response_from_cache] *)

(** X7. Whenever [get_age] returns, the age is not negative: the
    difference to the clock is cut at zero before it is truncated. *)
Lemma get_age_nonnegative self now response age :
  get_age self now response = Ok age -> 0 <= age.
Proof.
  unfold get_age.
  destruct (getitem0 _) as [text |]; simpl; [| discriminate].
  destruct (parse_date text) as [date |]; simpl; [| discriminate].
  intros [= <-]. unfold int_of, max0.
  generalize (now - inject_Z date)%Q. intros [num den].
  destruct (Qle_bool (num # den) 0) eqn:Hle; [reflexivity |].
  cbn [Qnum Qden]. apply Z.quot_pos; [| lia].
  destruct (Z.le_gt_cases 0 num) as [Hnum | Hnum]; [exact Hnum |].
  assert (Qle_bool (num # den) 0 = true) as Habs; [| congruence].
  apply Qle_bool_iff. unfold Qle. cbn [Qnum Qden]. lia.
Qed.

(** Past its lifetime the stored response is handed back and the
    request is not touched: [is_fresh] holds exactly when the age
    exceeds the lifetime. *)
Lemma construct_when_age_exceeds self now request response lifetime age :
  no_cache (from_value
    (extract_header_values_decoded (response_headers response) "Cache-Control" false))
    = false ->
  get_freshness_lifetime self response = Ok (Some lifetime) ->
  get_age self now response = Ok age ->
  lifetime < age ->
  construct_response_from_cache self now request response = Ok (request, the_response).
Proof.
  intros Hno_cache Hlifetime Hage Hlt. unfold construct_response_from_cache.
  rewrite Hno_cache, Hlifetime, Hage. simpl.
  destruct (Z.ltb_spec lifetime age); [reflexivity | lia].
Qed.

(** Within its lifetime the stored response is handed back only when
    [alloweed_stale] holds; otherwise the request is made conditional
    and the class [Request] is returned. *)
Lemma construct_when_age_within self now request response lifetime age :
  no_cache (from_value
    (extract_header_values_decoded (response_headers response) "Cache-Control" false))
    = false ->
  get_freshness_lifetime self response = Ok (Some lifetime) ->
  get_age self now response = Ok age ->
  age <= lifetime ->
  construct_response_from_cache self now request response =
    if alloweed_stale self response then Ok (request, the_response)
    else let* request' := make_request_conditional self request response in
         Ok (request', the_Request_class).
Proof.
  intros Hno_cache Hlifetime Hage Hle. unfold construct_response_from_cache.
  rewrite Hno_cache, Hlifetime, Hage. simpl.
  destruct (Z.ltb_spec lifetime age); [lia | reflexivity].
Qed.

(** With no lifetime the call always raises: in [get_age], or else at
    the comparison of the age with [None]. *)
Lemma construct_when_lifetime_unknown self now request response :
  no_cache (from_value
    (extract_header_values_decoded (response_headers response) "Cache-Control" false))
    = false ->
  get_freshness_lifetime self response = Ok None ->
  construct_response_from_cache self now request response =
    match get_age self now response with
    | Ok _ => Raise TypeError
    | Raise e => Raise e
    end.
Proof.
  intros Hno_cache Hlifetime. unfold construct_response_from_cache.
  rewrite Hno_cache, Hlifetime. simpl.
  destruct (get_age self now response); reflexivity.
Qed.

(** X13. The request itself is returned only on the [no-cache] path. *)
Lemma construct_returns_request_only_for_no_cache self now request response request' :
  construct_response_from_cache self now request response = Ok (request', the_request) ->
  no_cache (from_value
    (extract_header_values_decoded (response_headers response) "Cache-Control" false))
    = true.
Proof.
  unfold construct_response_from_cache.
  destruct (no_cache _); [reflexivity |].
  destruct (get_freshness_lifetime self response) as [lifetime |]; simpl; [| discriminate].
  destruct (get_age self now response) as [age |]; simpl; [| discriminate].
  destruct (int_gt_optional age lifetime) as [is_fresh |]; simpl; [| discriminate].
  destruct (is_fresh || alloweed_stale self response); [discriminate |].
  rewrite make_request_conditional_eq. simpl. discriminate.
Qed.

(** ** [is_cachable] *)

Lemma existsb_string_In (x : string) (l : list string) :
  existsb (String.eqb x) l = true <-> In x l.
Proof.
  rewrite existsb_exists. split.
  - intros (y & Hin & Heq). apply String.eqb_eq in Heq. by subst.
  - intros Hin. exists x. split; [exact Hin | apply String.eqb_refl].
Qed.

Lemma existsb_Z_In (x : Z) (l : list Z) :
  existsb (Z.eqb x) l = true <-> In x l.
Proof.
  rewrite existsb_exists. split.
  - intros (y & Hin & Heq). apply Z.eqb_eq in Heq. by subst.
  - intros Hin. exists x. split; [exact Hin | apply Z.eqb_refl].
Qed.

Lemma is_cachable_eq self request response :
  is_cachable self request response =
  let* method := decode_ascii (request_method request) in
  Ok (existsb (String.eqb method) (_cacheable_methods self)
      && negb (response_status response / 100 =? 1)
      && negb (no_store (from_value
           (extract_header_values_decoded (response_headers response) "cache-control" false)))
      && storable response).
Proof.
  unfold is_cachable, storable, any.
  set (directives := from_value _).
  set (heuristic := existsb (Z.eqb (response_status response)) HEURISTICALLY_CACHABLE).
  destruct (decode_ascii (request_method request)) as [method |]; simpl; [| reflexivity].
  destruct (existsb (String.eqb method) (_cacheable_methods self)); simpl; [| reflexivity].
  destruct (response_status response / 100 =? 1); simpl; [reflexivity |].
  destruct (no_store directives); simpl; [reflexivity |].
  destruct (public directives), (private directives),
    (header_presents (response_headers response) "expiers"),
    (bool_decide (max_age directives <> None)), heuristic;
    reflexivity.
Qed.

(** An [Expires] header is never looked at: when nothing else makes the
    response storable and no header is named [expiers], the answer is
    no. *)
Lemma is_cachable_ignores_expires self request response method :
  let directives :=
    from_value (extract_header_values_decoded (response_headers response) "cache-control" false) in
  decode_ascii (request_method request) = Ok method ->
  public directives = false ->
  private directives = false ->
  max_age directives = None ->
  ~ In (response_status response) HEURISTICALLY_CACHABLE ->
  header_presents (response_headers response) "expiers" = false ->
  is_cachable self request response = Ok false.
Proof.
  intros directives Hmethod Hpublic Hprivate Hmax Hstatus Hexpiers.
  rewrite is_cachable_eq, Hmethod. simpl. unfold storable. fold directives.
  rewrite Hpublic, Hprivate, Hmax, Hexpiers.
  destruct (existsb (Z.eqb (response_status response)) HEURISTICALLY_CACHABLE) eqn:Hin.
  - apply existsb_Z_In in Hin. contradiction.
  - rewrite !andb_false_r. reflexivity.
Qed.

(** C10: two controllers built with the same [cacheable_methods] and any
    two [cacheable_status_codes] give the same result, on the same
    arguments, in every operation; and whether a status code alone
    makes a response storable is its membership in
    [HEURISTICALLY_CACHABLE], the fixed set 200, 203, 204, 206, 300,
    301, 308, 404, 405, 410, 414, 501: for any controller, a response
    that is neither [public] nor [private], has no [max-age] and no
    header named [expiers] is stored exactly when its status is one of
    these twelve. *)
Theorem cacheable_status_codes_never_consulted
    (cacheable_methods : option (list string))
    (codes1 codes2 : option (list Z)) :
  let c1 := Controller_init cacheable_methods codes1 in
  let c2 := Controller_init cacheable_methods codes2 in
  (forall request response,
     is_cachable c1 request response = is_cachable c2 request response) /\
  (forall stored new, get_updated_headers c1 stored new = get_updated_headers c2 stored new) /\
  (forall response, get_freshness_lifetime c1 response = get_freshness_lifetime c2 response) /\
  (forall now response, get_age c1 now response = get_age c2 now response) /\
  (forall request response,
     make_request_conditional c1 request response =
     make_request_conditional c2 request response) /\
  (forall response, alloweed_stale c1 response = alloweed_stale c2 response) /\
  (forall now request response,
     construct_response_from_cache c1 now request response =
     construct_response_from_cache c2 now request response) /\
  (forall old_response new_response,
     handle_validation_response c1 old_response new_response =
     handle_validation_response c2 old_response new_response) /\
  (forall self request response,
     is_cachable self request response =
     let* method := decode_ascii (request_method request) in
     Ok (existsb (String.eqb method) (_cacheable_methods self)
         && negb (response_status response / 100 =? 1)
         && negb (no_store (from_value
              (extract_header_values_decoded (response_headers response)
                 "cache-control" false)))
         && storable response)) /\
  HEURISTICALLY_CACHABLE = [200; 203; 204; 206; 300; 301; 308; 404; 405; 410; 414; 501] /\
  (forall self request response method,
     let directives :=
       from_value (extract_header_values_decoded (response_headers response)
                     "cache-control" false) in
     decode_ascii (request_method request) = Ok method ->
     In method (_cacheable_methods self) ->
     no_store directives = false ->
     public directives = false ->
     private directives = false ->
     max_age directives = None ->
     header_presents (response_headers response) "expiers" = false ->
     (is_cachable self request response = Ok true <->
      In (response_status response)
         [200; 203; 204; 206; 300; 301; 308; 404; 405; 410; 414; 501])).
Proof.
  intros c1 c2. do 8 (split; [reflexivity |]).
  split; [intros self request response; apply is_cachable_eq |].
  split; [reflexivity |].
  intros self request response method directives
    Hmethod Hallowed Hstore Hpublic Hprivate Hmax Hexpiers.
  pose proof (existsb_Z_In (response_status response) HEURISTICALLY_CACHABLE) as Hheuristic.
  rewrite is_cachable_eq, Hmethod. cbn [bind]. unfold storable.
  fold directives. rewrite Hstore, Hpublic, Hprivate, Hmax, Hexpiers.
  apply existsb_string_In in Hallowed. rewrite Hallowed.
  rewrite (bool_decide_eq_false_2 (None <> None)) by (intros Hne; by apply Hne).
  set (heuristic := existsb (Z.eqb (response_status response)) HEURISTICALLY_CACHABLE) in *.
  cbn [andb orb negb]. split.
  - intros Hall. injection Hall as Hall.
    apply andb_true_iff in Hall as [_ Hstatus]. by apply Hheuristic.
  - intros Hstatus.
    assert ((response_status response / 100 =? 1) = false) as ->.
    { cbn [In] in Hstatus.
      repeat (destruct Hstatus as [<- | Hstatus]; [reflexivity |]).
      destruct Hstatus. }
    apply Hheuristic in Hstatus. rewrite Hstatus. reflexivity.
Qed.

(** ** More on [is_cachable] *)

Lemma decode_ascii_cases (b : string) :
  (ascii_only b /\ decode_ascii b = Ok b) \/
  (~ ascii_only b /\ decode_ascii b = Raise UnicodeDecodeError).
Proof.
  unfold ascii_only. induction b as [| c b IH]; simpl.
  - left. split; [constructor | reflexivity].
  - destruct (N.ltb_spec (Ascii.N_of_ascii c) 128) as [Hlt | Hge].
    + destruct IH as [[Hall ->] | [Hnot ->]]; simpl.
      * left. split; [by constructor | reflexivity].
      * right. split; [| reflexivity].
        intros Hall. apply Hnot. by inversion Hall.
    + right. split; [| reflexivity].
      intros Hall. inversion Hall; subst. lia.
Qed.

Lemma informational_status (status : Z) :
  (status / 100 =? 1) = true <-> 100 <= status <= 199.
Proof. rewrite Z.eqb_eq. split; intros H; Z.div_mod_to_equations; lia. Qed.

(** X1. The method is decoded before anything is tested: a request whose
    method is all ASCII always gets an answer, and one byte above 127 in
    the method makes [is_cachable] raise [UnicodeDecodeError], whatever
    the response. *)
Theorem is_cachable_raises_on_non_ascii_method self request response :
  (ascii_only (request_method request) ->
   exists answer, is_cachable self request response = Ok answer) /\
  (~ ascii_only (request_method request) ->
   is_cachable self request response = Raise UnicodeDecodeError).
Proof.
  rewrite is_cachable_eq.
  destruct (decode_ascii_cases (request_method request)) as [[Hall ->] | [Hnot ->]];
    simpl; split; intros H; try contradiction; eauto.
Qed.

(** X2. [is_cachable] answers yes only for a method of the allow-list, a
    status outside 100..199, a response without [no-store], and one of:
    [public], [private], a header named [expiers], [max-age], a status
    of [HEURISTICALLY_CACHABLE]. *)
Theorem is_cachable_true_requires self request response :
  let directives :=
    from_value (extract_header_values_decoded (response_headers response)
                  "cache-control" false) in
  is_cachable self request response = Ok true ->
  In (request_method request) (_cacheable_methods self) /\
  ~ (100 <= response_status response <= 199) /\
  no_store directives = false /\
  (public directives = true \/ private directives = true \/
   header_presents (response_headers response) "expiers" = true \/
   (exists n, max_age directives = Some n) \/
   In (response_status response) HEURISTICALLY_CACHABLE).
Proof.
  intros directives. rewrite is_cachable_eq.
  destruct (decode_ascii_cases (request_method request)) as [[_ ->] | [_ ->]];
    cbn [bind]; [| discriminate].
  intros [= Hall]. fold directives in Hall. unfold storable in Hall. fold directives in Hall.
  apply andb_true_iff in Hall as [Hall Hreason].
  apply andb_true_iff in Hall as [Hall Hstore].
  apply andb_true_iff in Hall as [Hmethod Hstatus].
  split; [by apply existsb_string_In |].
  split; [rewrite <- informational_status; by destruct (_ =? 1) |].
  split; [by destruct (no_store directives) |].
  destruct (public directives); [by left |].
  destruct (private directives); [by right; left |].
  destruct (header_presents _ _); [by right; right; left |].
  destruct (max_age directives) as [n |]; [right; right; right; left; by exists n |].
  right; right; right; right. apply existsb_Z_In.
  apply orb_true_iff in Hreason as [Hmax | Hin]; [| exact Hin].
  apply orb_true_iff in Hmax as [Hnone | Hmax]; [discriminate |].
  apply bool_decide_eq_true in Hmax. congruence.
Qed.

(** X3. Conversely an ASCII method of the allow-list, a status outside
    100..199 and no [no-store] give yes as soon as the response is
    [public] or [private], has a [max-age] of any value, zero included,
    or has a status of [HEURISTICALLY_CACHABLE]. *)
Theorem is_cachable_true_when self request response :
  let directives :=
    from_value (extract_header_values_decoded (response_headers response)
                  "cache-control" false) in
  ascii_only (request_method request) ->
  In (request_method request) (_cacheable_methods self) ->
  ~ (100 <= response_status response <= 199) ->
  no_store directives = false ->
  (public directives = true \/ private directives = true \/
   (exists n, max_age directives = Some n) \/
   In (response_status response) HEURISTICALLY_CACHABLE) ->
  is_cachable self request response = Ok true.
Proof.
  intros directives Hascii Hmethod Hstatus Hstore Hreason. rewrite is_cachable_eq.
  destruct (decode_ascii_cases (request_method request)) as [[_ ->] | [Hnot _]];
    [| contradiction].
  cbn [bind]. fold directives. unfold storable. fold directives. f_equal.
  apply existsb_string_In in Hmethod. rewrite Hmethod, Hstore.
  rewrite <- informational_status in Hstatus.
  destruct (response_status response / 100 =? 1); [by destruct Hstatus |].
  cbn [negb andb]. destruct Hreason as [-> | [-> | [[n ->] | Hin]]].
  - reflexivity.
  - by rewrite orb_true_r.
  - rewrite bool_decide_eq_true_2 by discriminate. by rewrite !orb_true_r.
  - apply existsb_Z_In in Hin. rewrite Hin. by rewrite !orb_true_r.
Qed.

(** X4. A controller built without methods, or with an empty list of them,
    stores responses to [GET] only, spelt exactly so. *)
Theorem is_cachable_default_methods (cacheable_methods : option (list string))
    (cacheable_status_codes : option (list Z)) request response :
  cacheable_methods = None \/ cacheable_methods = Some [] ->
  is_cachable (Controller_init cacheable_methods cacheable_status_codes)
    request response = Ok true ->
  request_method request = "GET".
Proof.
  intros Hdefault. rewrite is_cachable_eq.
  destruct (decode_ascii_cases (request_method request)) as [[_ ->] | [_ ->]];
    cbn [bind]; [| discriminate].
  intros [= Hall]. repeat (apply andb_true_iff in Hall as [Hall _]).
  apply existsb_string_In in Hall.
  destruct Hdefault as [-> | ->]; simpl in Hall; destruct Hall as [<- | []]; reflexivity.
Qed.

(** ** More on [get_age] *)

Lemma int_of_max0 (now : Q) (timestamp : Z) :
  int_of (max0 (now - inject_Z timestamp)) = Z.max 0 (Qfloor now - timestamp).
Proof.
  destruct now as [n d]. unfold max0, Qminus, Qplus, Qopp, inject_Z, Qle_bool.
  cbn [Qnum Qden Qfloor]. rewrite Pos.mul_1_r, !Z.mul_1_r, Z.mul_0_l.
  assert ((n + - timestamp * Z.pos d) / Z.pos d = n / Z.pos d - timestamp) as Hdiv.
  { rewrite Z.div_add by lia. lia. }
  destruct (Z.leb_spec (n + - timestamp * Z.pos d) 0) as [Hle | Hgt];
    unfold int_of; cbn [Qnum Qden].
  - assert (n / Z.pos d <= timestamp); [| rewrite Z.max_l by lia; reflexivity].
    apply Z.div_le_upper_bound; lia.
  - rewrite Z.quot_div_nonneg by lia. rewrite Hdiv.
    assert (0 <= (n + - timestamp * Z.pos d) / Z.pos d) by (apply Z.div_pos; lia).
    lia.
Qed.

(** X5. When the first [Date] value parses to [timestamp], the age is the
    whole seconds from [timestamp] to the clock reading, and 0 for a
    [Date] in the future.  This is stated for a positive [timestamp]
    below 2^53 and a clock reading between half and twice the
    [timestamp]: there the difference of the two binary64 numbers is
    itself a binary64 number, so the exact subtraction of [get_age] is
    the one the code performs. *)
Theorem get_age_value self now response date timestamp :
  first_value (response_headers response) "date" = Some date ->
  parse_date date = Ok timestamp ->
  0 < timestamp < 2 ^ 53 ->
  (inject_Z timestamp / 2 <= now)%Q ->
  (now <= 2 * inject_Z timestamp)%Q ->
  get_age self now response = Ok (Z.max 0 (Qfloor now - timestamp)).
Proof.
  intros Hdate Hparse _ _ _. unfold get_age.
  rewrite extract_header_values_decoded_eq, getitem0_extract, Hdate. cbn [bind].
  rewrite Hparse. cbn [bind]. f_equal. apply int_of_max0.
Qed.

(** X6. [get_age] has no fallback: without a [Date] header it raises
    [IndexError], and a first [Date] value that does not parse raises
    the parser's error. *)
Theorem get_age_failures self now response :
  (first_value (response_headers response) "date" = None ->
   get_age self now response = Raise IndexError) /\
  (forall date e,
     first_value (response_headers response) "date" = Some date ->
     parse_date date = Raise e ->
     get_age self now response = Raise e).
Proof.
  unfold get_age. rewrite extract_header_values_decoded_eq, getitem0_extract.
  split.
  - intros ->. reflexivity.
  - intros date e -> Hparse. cbn [bind]. rewrite Hparse. reflexivity.
Qed.

(** ** More on [make_request_conditional] *)

(** X8. Nothing is looked up in the request: a second call on the same
    stored response appends the same precondition headers, at most two,
    a second time. *)
Theorem make_request_conditional_twice self request response once twice :
  make_request_conditional self request response = Ok once ->
  make_request_conditional self once response = Ok twice ->
  exists added,
    (length added <= 2)%nat /\
    request_headers once = request_headers request ++ added /\
    request_headers twice = request_headers request ++ added ++ added.
Proof.
  rewrite !make_request_conditional_eq. intros [= <-] [= <-]. cbn [request_headers].
  eexists. split; [| split; [reflexivity |]].
  - rewrite length_app.
    destruct (first_value (response_headers response) "last-modified") as [[| c v] |];
      destruct (first_value (response_headers response) "etag") as [[| c' v'] |];
      simpl; lia.
  - by rewrite <- !app_assoc.
Qed.

(** ** More on [construct_response_from_cache] *)

(** X9. With [no-cache] neither the lifetime nor the age is computed: the
    call cannot raise, whatever the [Date] and [Expires] headers, and
    returns the request, made conditional. *)
Theorem construct_no_cache_never_raises self now request response :
  no_cache (from_value
    (extract_header_values_decoded (response_headers response) "Cache-Control" false))
    = true ->
  exists request',
    make_request_conditional self request response = Ok request' /\
    construct_response_from_cache self now request response = Ok (request', the_request).
Proof.
  intros Hno_cache. unfold construct_response_from_cache. rewrite Hno_cache.
  rewrite make_request_conditional_eq. cbn [bind]. eauto.
Qed.

(** X10. The call returns, instead of raising, exactly when the stored
    response has [no-cache], or has both a known lifetime and an age. *)
Theorem construct_returns_iff self now request response :
  (exists outcome, construct_response_from_cache self now request response = Ok outcome)
  <->
  no_cache (from_value
    (extract_header_values_decoded (response_headers response) "Cache-Control" false))
    = true \/
  (exists lifetime age,
     get_freshness_lifetime self response = Ok (Some lifetime) /\
     get_age self now response = Ok age).
Proof.
  unfold construct_response_from_cache.
  destruct (no_cache _).
  - rewrite make_request_conditional_eq. cbn [bind]. split; eauto.
  - destruct (get_freshness_lifetime self response) as [[lifetime |] |]; cbn [bind].
    + destruct (get_age self now response) as [age |]; cbn [bind int_gt_optional].
      * split; [eauto |]. intros _.
        destruct (_ || _); [eauto |].
        rewrite make_request_conditional_eq. cbn [bind]. eauto.
      * split; [intros [? [=]] |].
        intros [[=] | (? & ? & _ & [=])].
    + split.
      * destruct (get_age self now response); cbn [bind int_gt_optional];
          intros [? [=]].
      * intros [[=] | (? & ? & [=] & _)].
    + split; [intros [? [=]] |]. intros [[=] | (? & ? & [=] & _)].
Qed.

(** X11. Without [no-cache] and [must-revalidate] a stored response with a
    lifetime and an age is handed back at any age, and the request is
    left as it was. *)
Theorem construct_stale_allowed self now request response lifetime age :
  alloweed_stale self response = true ->
  get_freshness_lifetime self response = Ok (Some lifetime) ->
  get_age self now response = Ok age ->
  construct_response_from_cache self now request response = Ok (request, the_response).
Proof.
  intros Hstale Hlifetime Hage. unfold construct_response_from_cache.
  assert (no_cache (from_value
    (extract_header_values_decoded (response_headers response) "Cache-Control" false))
    = false) as ->.
  { unfold alloweed_stale in Hstale. by destruct (no_cache _). }
  rewrite Hlifetime, Hage. cbn [bind int_gt_optional]. rewrite Hstale.
  by rewrite orb_true_r.
Qed.

(** X12. What each outcome says of the call.  The stored response comes with
    the request untouched.  The class [Request] comes only for a
    response with [must-revalidate] whose age does not exceed its
    lifetime, and with the request made conditional. *)
Theorem construct_outcomes self now request response request' :
  (construct_response_from_cache self now request response = Ok (request', the_response) ->
   request' = request) /\
  (construct_response_from_cache self now request response
     = Ok (request', the_Request_class) ->
   must_revalidate (from_value
     (extract_header_values_decoded (response_headers response) "Cache-Control" false))
     = true /\
   make_request_conditional self request response = Ok request' /\
   exists lifetime age,
     get_freshness_lifetime self response = Ok (Some lifetime) /\
     get_age self now response = Ok age /\
     age <= lifetime).
Proof.
  unfold construct_response_from_cache, alloweed_stale.
  destruct (no_cache _) eqn:Hno_cache.
  - rewrite make_request_conditional_eq. cbn [bind]. split; intros [=].
  - destruct (get_freshness_lifetime self response) as [[lifetime |] |]; cbn [bind];
      [| split; destruct (get_age self now response); cbn [bind int_gt_optional];
         intros [=] | split; intros [=]].
    destruct (get_age self now response) as [age |]; cbn [bind int_gt_optional];
      [| split; intros [=]].
    destruct (Z.ltb_spec lifetime age) as [Hlt | Hle]; cbn [orb].
    + split; intros [=]. by subst.
    + destruct (must_revalidate _); cbn [orb].
      * rewrite make_request_conditional_eq. cbn [bind]. split; intros [=].
        subst. split; [reflexivity |]. split; [reflexivity |].
        exists lifetime, age. auto.
      * split; intros [=]. by subst.
Qed.

(** ** [handle_validation_response] *)

(** X14. Any status but 304 gives the new response as it is.  A 304 gives the
    old status with the merged headers, which carry no [Content-Length]. *)
Theorem handle_validation_response_cases self old_response new_response :
  (response_status new_response <> 304 ->
   handle_validation_response self old_response new_response = new_response) /\
  (response_status new_response = 304 ->
   response_status (handle_validation_response self old_response new_response)
     = response_status old_response /\
   response_headers (handle_validation_response self old_response new_response)
     = get_updated_headers self (response_headers old_response)
         (response_headers new_response) /\
   free_of_content_length
     (response_headers (handle_validation_response self old_response new_response))).
Proof.
  unfold handle_validation_response. split.
  - intros Hstatus. destruct (Z.eqb_spec (response_status new_response) 304);
      [contradiction | reflexivity].
  - intros ->. cbn [Z.eqb Pos.eqb response_status response_headers].
    split; [reflexivity |]. split; [reflexivity |].
    unfold get_updated_headers.
    pose proof (fold_merge_stored_free (response_headers old_response)
                  (response_headers new_response) (response_headers old_response)
                  ([], ∅)) as Hstored.
    destruct (fold_left _ (response_headers old_response) ([], ∅)) as [updated checked].
    apply fold_merge_new_free. apply Hstored. constructor.
Qed.

(** ** More on [get_updated_headers] *)

Lemma merge_stored_eq stored new updated checked item :
  merge_stored stored new (updated, checked) item =
  if bool_decide (fst item ∉ checked) && kept (fst item)
  then (updated ++ map (pair (fst item)) (merged_values stored new (fst item)),
        {[ fst item ]} ∪ checked)
  else (updated, checked).
Proof.
  clear from_value parse_date.
  unfold merge_stored, merged_values, kept. destruct (_ && _); [| reflexivity].
  destruct (extract_header_values new (fst item) false); reflexivity.
Qed.

Lemma in_map_pair (key key' value : string) (values : list string) :
  In (key', value) (map (pair key) values) <-> key' = key /\ In value values.
Proof.
  clear from_value parse_date.
  rewrite in_map_iff. split.
  - intros (x & [= <- <-] & Hin). auto.
  - intros [-> Hin]. eauto.
Qed.

Ltac by_cases := intuition (subst; try congruence; try tauto).

(** The first loop, from any state: what it adds to [updated_headers]
    and to [checked]. *)
Lemma fold_merge_stored_parts stored new items updated (checked : gset string) :
  exists added checked',
    fold_left (merge_stored stored new) items (updated, checked)
      = (updated ++ added, checked') /\
    (forall key, key ∈ checked' <->
       key ∈ checked \/ (In key (map fst items) /\ kept key = true)) /\
    (forall key value, In (key, value) added <->
       In key (map fst items) /\ kept key = true /\ (key ∉ checked) /\
       In value (merged_values stored new key)).
Proof.
  clear from_value parse_date.
  revert updated checked.
  induction items as [| item items IH]; intros updated checked; cbn [fold_left map].
  - exists [], checked. rewrite app_nil_r. split; [reflexivity |].
    split; intros; simpl; tauto.
  - rewrite merge_stored_eq.
    destruct (bool_decide_reflect (fst item ∉ checked)) as [Hfresh | Hold]; cbn [andb];
      [destruct (kept (fst item)) eqn:Hkept |].
    + destruct (IH (updated ++ map (pair (fst item)) (merged_values stored new (fst item)))
                  ({[ fst item ]} ∪ checked)) as (added & checked' & -> & Hchecked & Hadded).
      exists (map (pair (fst item)) (merged_values stored new (fst item)) ++ added), checked'.
      split; [by rewrite app_assoc |]. split.
      * intros key. rewrite Hchecked, elem_of_union, elem_of_singleton. simpl.
        destruct (decide (key = fst item)) as [-> | Hne]; by_cases.
      * intros key value.
        rewrite in_app_iff, in_map_pair, Hadded, not_elem_of_union, elem_of_singleton.
        simpl. destruct (decide (key = fst item)) as [-> | Hne]; by_cases.
    + destruct (IH updated checked) as (added & checked' & -> & Hchecked & Hadded).
      exists added, checked'. split; [reflexivity |]. split.
      * intros key. rewrite Hchecked. simpl.
        destruct (decide (key = fst item)) as [-> | Hne]; by_cases.
      * intros key value. rewrite Hadded. simpl.
        destruct (decide (key = fst item)) as [-> | Hne]; by_cases.
    + apply dec_stable in Hold.
      destruct (IH updated checked) as (added & checked' & -> & Hchecked & Hadded).
      exists added, checked'. split; [reflexivity |]. split.
      * intros key. rewrite Hchecked. simpl.
        destruct (decide (key = fst item)) as [-> | Hne]; by_cases.
      * intros key value. rewrite Hadded. simpl.
        destruct (decide (key = fst item)) as [-> | Hne]; by_cases.
Qed.

(** The second loop, from any state. *)
Lemma fold_merge_new_parts new (checked : gset string) items updated :
  exists added,
    fold_left (merge_new new checked) items updated = updated ++ added /\
    (forall key value, In (key, value) added <->
       In key (map fst items) /\ kept key = true /\ (key ∉ checked) /\
       In value (extract_header_values new key false)).
Proof.
  clear from_value parse_date.
  revert updated. induction items as [| item items IH]; intros updated; cbn [fold_left map].
  - exists []. rewrite app_nil_r. split; [reflexivity |]. intros; simpl; tauto.
  - unfold merge_new at 2. fold (kept (fst item)).
    destruct (bool_decide_reflect (fst item ∉ checked)) as [Hfresh | Hold]; cbn [andb];
      [destruct (kept (fst item)) eqn:Hkept |].
    + destruct (IH (updated ++ map (pair (fst item))
                      (extract_header_values new (fst item) false)))
        as (added & -> & Hadded).
      exists (map (pair (fst item)) (extract_header_values new (fst item) false) ++ added).
      split; [by rewrite app_assoc |].
      intros key value. rewrite in_app_iff, in_map_pair, Hadded. simpl.
      destruct (decide (key = fst item)) as [-> | Hne]; by_cases.
    + destruct (IH updated) as (added & -> & Hadded). exists added.
      split; [reflexivity |]. intros key value. rewrite Hadded. simpl.
      destruct (decide (key = fst item)) as [-> | Hne]; by_cases.
    + apply dec_stable in Hold.
      destruct (IH updated) as (added & -> & Hadded). exists added.
      split; [reflexivity |]. intros key value. rewrite Hadded. simpl.
      destruct (decide (key = fst item)) as [-> | Hne]; by_cases.
Qed.

(** The two parts of the merged list. *)
Lemma get_updated_headers_parts self stored new :
  exists from_stored from_new,
    get_updated_headers self stored new = from_stored ++ from_new /\
    (forall key value, In (key, value) from_stored <->
       In key (map fst stored) /\ kept key = true /\
       In value (merged_values stored new key)) /\
    (forall key value, In (key, value) from_new <->
       In key (map fst new) /\ ~ In key (map fst stored) /\ kept key = true /\
       In value (extract_header_values new key false)).
Proof.
  clear from_value parse_date.
  unfold get_updated_headers.
  destruct (fold_merge_stored_parts stored new stored [] ∅)
    as (from_stored & checked & -> & Hchecked & Hstored).
  destruct (fold_merge_new_parts new checked new ([] ++ from_stored))
    as (from_new & -> & Hnew).
  exists from_stored, from_new. split; [reflexivity |]. split.
  - intros key value. rewrite Hstored. pose proof (not_elem_of_empty (C:=gset string) key).
    by_cases.
  - intros key value. rewrite Hnew, Hchecked.
    pose proof (not_elem_of_empty (C:=gset string) key). by_cases.
Qed.

Lemma extract_header_values_contains headers key value :
  In (key, value) headers -> In value (extract_header_values headers key false).
Proof.
  clear from_value parse_date.
  induction headers as [| [key0 value0] rest IH]; simpl; [tauto |].
  intros [[= -> ->] | Hin].
  - unfold same_name. rewrite String.eqb_refl. by left.
  - destruct (same_name key0 key); [right |]; by apply IH.
Qed.

Lemma extract_header_values_absent headers key :
  ~ In (lower key) (lowered_names headers) ->
  extract_header_values headers key false = [].
Proof.
  clear from_value parse_date.
  induction headers as [| [key0 value0] rest IH]; simpl; [reflexivity |].
  intros Hout. unfold same_name at 1.
  destruct (String.eqb_spec (lower key0) (lower key)) as [Heq | Hne].
  - exfalso. apply Hout. by left.
  - apply IH. tauto.
Qed.

Lemma extract_header_values_unique headers key value :
  List.NoDup (lowered_names headers) ->
  In (key, value) headers ->
  extract_header_values headers key false = [value].
Proof.
  clear from_value parse_date.
  induction headers as [| [key0 value0] rest IH]; simpl; [tauto |].
  intros Hdistinct Hin. apply List.NoDup_cons_iff in Hdistinct as [Hfresh Hdistinct].
  simpl in Hfresh. unfold same_name at 1.
  destruct Hin as [[= -> ->] | Hin].
  - rewrite String.eqb_refl. f_equal. by apply extract_header_values_absent.
  - destruct (String.eqb_spec (lower key0) (lower key)) as [Heq | Hne].
    + exfalso. apply Hfresh. rewrite Heq.
      change (lower key) with ((fun item : header => lower (fst item)) (key, value)).
      by apply in_map.
    + by apply IH.
Qed.

(** X15. New values win: a pair of the merged list has a name of one of the
    two inputs, and its value is one the new headers give that name or,
    only when they give it none, one the stored headers give it. *)
Theorem get_updated_headers_new_values_win self stored new key value :
  In (key, value) (get_updated_headers self stored new) ->
  (In key (map fst stored) \/ In key (map fst new)) /\
  (In value (extract_header_values new key false) \/
   (extract_header_values new key false = [] /\
    In value (extract_header_values stored key false))).
Proof.
  clear from_value parse_date.
  destruct (get_updated_headers_parts self stored new)
    as (from_stored & from_new & -> & Hstored & Hnew).
  rewrite in_app_iff, Hstored, Hnew. unfold merged_values.
  intros [(Hkey & _ & Hvalue) | (Hkey & _ & _ & Hvalue)].
  - split; [by left |].
    destruct (extract_header_values new key false); [right | left]; auto.
  - split; [by right | by left].
Qed.

(** X16. Every pair of the new headers is in the merged list, under its own
    spelling of the name, unless the name is [Content-Length]. *)
Theorem get_updated_headers_keeps_new self stored new key value :
  In (key, value) new ->
  kept key = true ->
  In (key, value) (get_updated_headers self stored new).
Proof.
  clear from_value parse_date.
  intros Hin Hkept.
  destruct (get_updated_headers_parts self stored new)
    as (from_stored & from_new & -> & Hstored & Hnew).
  rewrite in_app_iff, Hstored, Hnew.
  pose proof (extract_header_values_contains new key value Hin) as Hvalue.
  assert (In key (map fst new)) as Hkey.
  { change key with (fst (key, value)). by apply in_map. }
  destruct (in_dec String.string_dec key (map fst stored)) as [Hold | Hfresh].
  - left. split; [exact Hold |]. split; [exact Hkept |]. unfold merged_values.
    destruct (extract_header_values new key false); [destruct Hvalue | exact Hvalue].
  - right. auto.
Qed.

(** X17. A stored pair whose name has no value among the new headers is in
    the merged list, unless the name is [Content-Length]. *)
Theorem get_updated_headers_keeps_unmatched self stored new key value :
  In (key, value) stored ->
  kept key = true ->
  extract_header_values new key false = [] ->
  In (key, value) (get_updated_headers self stored new).
Proof.
  clear from_value parse_date.
  intros Hin Hkept Hnone.
  destruct (get_updated_headers_parts self stored new)
    as (from_stored & from_new & -> & Hstored & _).
  rewrite in_app_iff, Hstored. left.
  split; [change key with (fst (key, value)); by apply in_map |].
  split; [exact Hkept |]. unfold merged_values. rewrite Hnone.
  by apply extract_header_values_contains.
Qed.

(** X18. The merged list is the pairs under names spelt as in the stored
    headers, followed by those under names of the new headers that no
    stored header spells the same way. *)
Theorem get_updated_headers_order self stored new :
  exists from_stored from_new,
    get_updated_headers self stored new = from_stored ++ from_new /\
    (forall item, In item from_stored -> In (fst item) (map fst stored)) /\
    (forall item, In item from_new ->
       In (fst item) (map fst new) /\ ~ In (fst item) (map fst stored)).
Proof.
  clear from_value parse_date.
  destruct (get_updated_headers_parts self stored new)
    as (from_stored & from_new & Heq & Hstored & Hnew).
  exists from_stored, from_new. split; [exact Heq |]. split.
  - intros [key value] Hin. by apply Hstored in Hin as [Hkey _].
  - intros [key value] Hin. apply Hnew in Hin as (Hkey & Hfresh & _). auto.
Qed.

Lemma fold_merge_stored_distinct stored items :
  List.NoDup (lowered_names stored) ->
  forall before updated (checked : gset string),
    stored = before ++ items ->
    (forall key, key ∈ checked -> In key (map fst before)) ->
    fst (fold_left (merge_stored stored []) items (updated, checked)) =
    updated ++ List.filter (fun item => kept (fst item)) items.
Proof.
  clear from_value parse_date.
  intros Hdistinct.
  induction items as [| [key value] items IH]; intros before updated checked Hsplit Hchecked;
    cbn [fold_left List.filter fst].
  - by rewrite app_nil_r.
  - rewrite merge_stored_eq. cbn [fst].
    assert (key ∉ checked) as Hfresh.
    { intros Hold. apply Hchecked in Hold.
      rewrite Hsplit in Hdistinct. unfold lowered_names in Hdistinct.
      rewrite map_app in Hdistinct. cbn [map fst] in Hdistinct.
      apply List.NoDup_remove_2 in Hdistinct. apply Hdistinct. apply in_or_app. left.
      apply in_map_iff in Hold as ([key' value'] & Hkey & Hin). simpl in Hkey. subst key'.
      change (lower key) with ((fun item : header => lower (fst item)) (key, value')).
      by apply in_map. }
    rewrite (bool_decide_eq_true_2 _ Hfresh). cbn [andb].
    assert (merged_values stored [] key = [value]) as ->.
    { unfold merged_values. cbn [extract_header_values].
      apply extract_header_values_unique; [exact Hdistinct |].
      rewrite Hsplit. apply in_or_app. right. by left. }
    assert (stored = (before ++ [(key, value)]) ++ items) as Hsplit'.
    { by rewrite <- app_assoc. }
    destruct (kept key).
    + rewrite (IH (before ++ [(key, value)]) _ _ Hsplit').
      * cbn [map]. by rewrite <- app_assoc.
      * intros key' Hin. rewrite map_app. apply in_or_app.
        apply elem_of_union in Hin as [Hin | Hin].
        -- right. apply elem_of_singleton in Hin. subst. by left.
        -- left. by apply Hchecked.
    + apply (IH (before ++ [(key, value)]) _ _ Hsplit').
      intros key' Hin. rewrite map_app. apply in_or_app. left. by apply Hchecked.
Qed.

(** X19. A validation response without headers changes nothing but
    [Content-Length]: when no two stored headers have the same name, case
    apart, merging with the empty list gives the stored headers back, in
    order, without [Content-Length]. *)
Theorem get_updated_headers_nothing_new self stored :
  List.NoDup (lowered_names stored) ->
  get_updated_headers self stored [] =
  List.filter (fun item => kept (fst item)) stored.
Proof.
  clear from_value parse_date.
  intros Hdistinct. unfold get_updated_headers.
  pose proof (fold_merge_stored_distinct stored stored Hdistinct [] [] ∅ eq_refl)
    as Hfold.
  destruct (fold_left (merge_stored stored []) stored ([], ∅)) as [updated checked].
  cbn [fold_left fst] in *. apply Hfold. intros key Hin.
  by apply not_elem_of_empty in Hin.
Qed.

End Controller.

(** ** The helpers on concrete values *)

Example parse_imf_fixdate_rfc :
  parse_imf_fixdate "Sun, 06 Nov 1994 08:49:37 GMT" = Ok 784111777.
Proof. vm_compute. reflexivity. Qed.

Example parse_imf_fixdate_epoch :
  parse_imf_fixdate "Thu, 01 Jan 1970 00:00:00 GMT" = Ok 0.
Proof. vm_compute. reflexivity. Qed.

Example parse_imf_fixdate_zero : parse_imf_fixdate "0" = Raise DateParseError.
Proof. vm_compute. reflexivity. Qed.

Example parse_cache_control_example :
  parse_cache_control ["Max-Age=100, must-revalidate"; " public"] =
  {| no_store := false; no_cache := false; public := true; private := false;
     must_revalidate := true; max_age := Some 100; s_maxage := None |}.
Proof. vm_compute. reflexivity. Qed.

(** ** The controller on concrete messages

    [parse_cache_control] and [parse_imf_fixdate] stand for the two
    helpers; the clock reads 150 or 50 seconds after the [Date] of the
    stored response. *)

(** C1 fails on the code.  The stored response has lifetime 100, age 150
    and [must-revalidate], so [alloweed_stale] is false; the call hands
    back the stored response and leaves the request without
    [If-Unmodified-Since] and [If-None-Match]. *)
Theorem construct_past_lifetime_returns_stored_response :
  no_cache (parse_cache_control
    (extract_header_values_decoded (response_headers must_revalidate_response)
       "Cache-Control" false)) = false /\
  get_freshness_lifetime parse_cache_control parse_imf_fixdate default_controller
    must_revalidate_response = Ok (Some 100) /\
  get_age parse_imf_fixdate default_controller 150 must_revalidate_response = Ok 150 /\
  alloweed_stale parse_cache_control default_controller must_revalidate_response = false /\
  construct_response_from_cache parse_cache_control parse_imf_fixdate default_controller
    150 plain_request must_revalidate_response = Ok (plain_request, the_response).
Proof.
  assert (get_freshness_lifetime parse_cache_control parse_imf_fixdate default_controller
            must_revalidate_response = Ok (Some 100)) as Hlifetime
    by (vm_compute; reflexivity).
  assert (get_age parse_imf_fixdate default_controller 150 must_revalidate_response
          = Ok 150) as Hage by (vm_compute; reflexivity).
  split; [vm_compute; reflexivity |].
  split; [exact Hlifetime |]. split; [exact Hage |].
  split; [vm_compute; reflexivity |].
  apply (construct_when_age_exceeds parse_cache_control parse_imf_fixdate default_controller
           150 plain_request must_revalidate_response 100 150 eq_refl Hlifetime Hage).
  lia.
Qed.

(** C2 fails on the code.  The same stored response at age 50 is within
    its lifetime of 100, yet the call does not hand it back: it makes
    the request conditional and returns the class [Request]. *)
Theorem construct_within_lifetime_returns_Request_class :
  get_freshness_lifetime parse_cache_control parse_imf_fixdate default_controller
    must_revalidate_response = Ok (Some 100) /\
  get_age parse_imf_fixdate default_controller 50 must_revalidate_response = Ok 50 /\
  construct_response_from_cache parse_cache_control parse_imf_fixdate default_controller
    50 plain_request must_revalidate_response =
  Ok ({| request_method := "GET";
         request_headers :=
           [("Host", "example.org"); ("If-Unmodified-Since", epoch);
            ("If-None-Match", "v1")] |}, the_Request_class).
Proof.
  assert (get_freshness_lifetime parse_cache_control parse_imf_fixdate default_controller
            must_revalidate_response = Ok (Some 100)) as Hlifetime
    by (vm_compute; reflexivity).
  assert (get_age parse_imf_fixdate default_controller 50 must_revalidate_response
          = Ok 50) as Hage by (vm_compute; reflexivity).
  split; [exact Hlifetime |]. split; [exact Hage |].
  rewrite (construct_when_age_within parse_cache_control parse_imf_fixdate default_controller
             50 plain_request must_revalidate_response 100 50 eq_refl Hlifetime Hage);
    [| lia].
  vm_compute; reflexivity.
Qed.

(** C3 fails on the code.  The stored response has a [Date] and nothing
    that gives a lifetime; [alloweed_stale] is true, and the call raises
    [TypeError] where the claim has it return the stored response. *)
Theorem construct_unknown_lifetime_raises_TypeError :
  get_freshness_lifetime parse_cache_control parse_imf_fixdate default_controller
    dated_response = Ok None /\
  alloweed_stale parse_cache_control default_controller dated_response = true /\
  construct_response_from_cache parse_cache_control parse_imf_fixdate default_controller
    150 plain_request dated_response = Raise TypeError.
Proof.
  assert (get_freshness_lifetime parse_cache_control parse_imf_fixdate default_controller
            dated_response = Ok None) as Hlifetime by (vm_compute; reflexivity).
  split; [exact Hlifetime |]. split; [vm_compute; reflexivity |].
  rewrite (construct_when_lifetime_unknown parse_cache_control parse_imf_fixdate
             default_controller 150 plain_request dated_response eq_refl Hlifetime).
  vm_compute; reflexivity.
Qed.

(** C4 fails on the code.  A [GET] request and a 202 response whose only
    reason to be stored is its [Expires] header: [is_cachable] answers
    no, and answers yes once the header is renamed [Expiers]. *)
Theorem is_cachable_rejects_expires_response :
  header_presents (response_headers expiring_response) "Expires" = true /\
  is_cachable parse_cache_control default_controller plain_request expiring_response
    = Ok false /\
  is_cachable parse_cache_control default_controller plain_request misspelt_response
    = Ok true.
Proof.
  split; [vm_compute; reflexivity |]. split; [| vm_compute; reflexivity].
  apply (is_cachable_ignores_expires _ _ _ _ "GET"); try (vm_compute; reflexivity).
  vm_compute. intuition discriminate.
Qed.

(** C5 fails on the code.  A name on two pairs of the new headers only
    has its values added twice; a new name that differs from a stored
    one in case only is added a second time. *)
Theorem get_updated_headers_repeats_names :
  get_updated_headers default_controller []
    [("Set-Cookie", "a=1"); ("Set-Cookie", "b=2")] =
    [("Set-Cookie", "a=1"); ("Set-Cookie", "b=2");
     ("Set-Cookie", "a=1"); ("Set-Cookie", "b=2")] /\
  get_updated_headers default_controller [("ETag", "a")] [("etag", "b")] =
    [("ETag", "b"); ("etag", "b")] /\
  get_updated_headers default_controller [("ETag", "a"); ("etag", "c")] [] =
    [("ETag", "a"); ("ETag", "c"); ("etag", "a"); ("etag", "c")].
Proof. repeat split; vm_compute; reflexivity. Qed.




(** C8 fails on the code.  The stored response has a [Last-Modified]
    header whose value is empty: no [If-Unmodified-Since] is appended,
    only the [If-None-Match] of its [ETag]. *)
Lemma make_request_conditional_skips_empty_validator :
  header_presents (response_headers empty_validator_response) "last-modified" = true /\
  extract_header_values (response_headers empty_validator_response) "last-modified" true
    = [""] /\
  make_request_conditional default_controller plain_request empty_validator_response =
    Ok {| request_method := "GET";
          request_headers := [("Host", "example.org"); ("If-None-Match", "v1")] |} /\
  make_request_conditional default_controller plain_request empty_validator_response <>
    Ok {| request_method := "GET";
          request_headers :=
            [("Host", "example.org"); ("If-Unmodified-Since", "");
             ("If-None-Match", "v1")] |}.
Proof. repeat split; vm_compute; (reflexivity || discriminate). Qed.

Lemma make_request_conditional_appends_witness :
  make_request_conditional default_controller plain_request dated_response
    = Ok plain_request /\
  exists request',
    make_request_conditional default_controller plain_request must_revalidate_response
      = Ok request' /\
    request_headers request' =
      [("Host", "example.org"); ("If-Unmodified-Since", epoch); ("If-None-Match", "v1")].
Proof.
  split.
  - destruct (make_request_conditional_appends default_controller plain_request
                dated_response) as (request' & Hcall & _ & _ & Hsame).
    rewrite Hcall. f_equal. apply Hsame; reflexivity.
  - destruct (make_request_conditional_appends default_controller plain_request
                must_revalidate_response) as (request' & Hcall & _ & Hheaders & _).
    exists request'. split; [exact Hcall | exact Hheaders].
Defined.

(** [Content-Length] in both inputs, in two spellings. *)
Example get_updated_headers_drops_content_length :
  get_updated_headers default_controller
    [("Content-Length", "10"); ("ETag", "a")]
    [("content-length", "12"); ("ETag", "b")] = [("ETag", "b")].
Proof. vm_compute; reflexivity. Qed.

(** The example of the merge rule: the new [ETag] replaces the stored
    one, the stored header without a new value is kept. *)
Example get_updated_headers_merge :
  get_updated_headers default_controller
    [("ETag", "a"); ("X-Custom", "1")] [("ETag", "b")] =
    [("ETag", "b"); ("X-Custom", "1")].
Proof. vm_compute; reflexivity. Qed.

(** A status list given to the constructor changes no answer: 202 stays
    out and 404 stays in. *)
Example is_cachable_configured_status :
  is_cachable parse_cache_control (Controller_init None (Some [202])) plain_request
    {| response_status := 202; response_headers := [] |} = Ok false /\
  is_cachable parse_cache_control (Controller_init None (Some [202])) plain_request
    {| response_status := 404; response_headers := [] |} = Ok true.
Proof. split; vm_compute; reflexivity. Qed.

(** ** The further properties on concrete messages *)

Lemma is_cachable_raises_on_non_ascii_method_witness :
  (exists answer,
     is_cachable parse_cache_control default_controller plain_request dated_response
       = Ok answer) /\
  is_cachable parse_cache_control default_controller non_ascii_request dated_response
    = Raise UnicodeDecodeError.
Proof.
  split.
  - apply (proj1 (is_cachable_raises_on_non_ascii_method parse_cache_control
                    default_controller plain_request dated_response)).
    unfold ascii_only. vm_compute. repeat constructor.
  - apply (proj2 (is_cachable_raises_on_non_ascii_method parse_cache_control
                    default_controller non_ascii_request dated_response)).
    unfold ascii_only. intros Hall. inversion Hall as [| c rest Hbyte Hrest]; subst.
    vm_compute in Hbyte. discriminate.
Defined.

Lemma is_cachable_true_requires_witness :
  In (request_method plain_request) (_cacheable_methods default_controller) /\
  ~ (100 <= response_status dated_response <= 199).
Proof.
  destruct (is_cachable_true_requires parse_cache_control default_controller
              plain_request dated_response) as (Hmethod & Hstatus & _).
  - vm_compute. reflexivity.
  - split; assumption.
Defined.

Lemma is_cachable_true_when_witness :
  is_cachable parse_cache_control default_controller plain_request zero_max_age_response
    = Ok true.
Proof.
  apply is_cachable_true_when.
  - unfold ascii_only. vm_compute. repeat constructor.
  - left. reflexivity.
  - simpl. lia.
  - vm_compute. reflexivity.
  - right. right. left. exists 0. vm_compute. reflexivity.
Defined.

Lemma is_cachable_default_methods_witness :
  request_method plain_request = "GET" /\
  is_cachable parse_cache_control (Controller_init (Some []) None) lowercase_request
    dated_response = Ok false.
Proof.
  split.
  - apply (is_cachable_default_methods parse_cache_control (Some []) None
             plain_request dated_response).
    + right. reflexivity.
    + vm_compute. reflexivity.
  - vm_compute. reflexivity.
Defined.

Lemma get_age_value_witness :
  get_age parse_imf_fixdate default_controller (1568223855 # 2) archived_response
    = Ok 150 /\
  get_age parse_imf_fixdate default_controller (784111770 # 1) archived_response
    = Ok 0.
Proof.
  split.
  - apply (get_age_value parse_imf_fixdate default_controller (1568223855 # 2)
             archived_response "Sun, 06 Nov 1994 08:49:37 GMT" 784111777).
    + vm_compute; reflexivity.
    + vm_compute; reflexivity.
    + split; reflexivity.
    + unfold Qle; simpl; lia.
    + unfold Qle; simpl; lia.
  - apply (get_age_value parse_imf_fixdate default_controller (784111770 # 1)
             archived_response "Sun, 06 Nov 1994 08:49:37 GMT" 784111777).
    + vm_compute; reflexivity.
    + vm_compute; reflexivity.
    + split; reflexivity.
    + unfold Qle; simpl; lia.
    + unfold Qle; simpl; lia.
Defined.

Lemma get_age_failures_witness :
  get_age parse_imf_fixdate default_controller 150 undated_expiring_response
    = Raise IndexError /\
  get_age parse_imf_fixdate default_controller 150 misdated_response
    = Raise DateParseError.
Proof.
  split.
  - apply (proj1 (get_age_failures parse_imf_fixdate default_controller 150
                    undated_expiring_response)).
    vm_compute. reflexivity.
  - apply (proj2 (get_age_failures parse_imf_fixdate default_controller 150
                    misdated_response) "yesterday");
      vm_compute; reflexivity.
Defined.

Lemma get_age_nonnegative_witness : 0 <= 150.
Proof.
  apply (get_age_nonnegative parse_imf_fixdate default_controller 150
           must_revalidate_response 150).
  vm_compute. reflexivity.
Defined.

Lemma make_request_conditional_twice_witness :
  exists added,
    (length added <= 2)%nat /\
    [("Host", "example.org"); ("If-Unmodified-Since", epoch); ("If-None-Match", "v1")]
      = request_headers plain_request ++ added /\
    [("Host", "example.org"); ("If-Unmodified-Since", epoch); ("If-None-Match", "v1");
     ("If-Unmodified-Since", epoch); ("If-None-Match", "v1")]
      = request_headers plain_request ++ added ++ added.
Proof.
  apply (make_request_conditional_twice default_controller plain_request
           must_revalidate_response
           {| request_method := "GET";
              request_headers :=
                [("Host", "example.org"); ("If-Unmodified-Since", epoch);
                 ("If-None-Match", "v1")] |}
           {| request_method := "GET";
              request_headers :=
                [("Host", "example.org"); ("If-Unmodified-Since", epoch);
                 ("If-None-Match", "v1"); ("If-Unmodified-Since", epoch);
                 ("If-None-Match", "v1")] |});
    vm_compute; reflexivity.
Defined.

Lemma construct_no_cache_never_raises_witness :
  exists request',
    make_request_conditional default_controller plain_request no_cache_response
      = Ok request' /\
    construct_response_from_cache parse_cache_control parse_imf_fixdate
      default_controller 150 plain_request no_cache_response = Ok (request', the_request).
Proof.
  apply construct_no_cache_never_raises. vm_compute. reflexivity.
Defined.

Lemma construct_returns_iff_witness :
  exists outcome,
    construct_response_from_cache parse_cache_control parse_imf_fixdate
      default_controller 150 plain_request stale_allowed_response = Ok outcome.
Proof.
  apply (proj2 (construct_returns_iff parse_cache_control parse_imf_fixdate
                  default_controller 150 plain_request stale_allowed_response)).
  right. exists 100, 150. split; vm_compute; reflexivity.
Defined.

Lemma construct_stale_allowed_witness :
  construct_response_from_cache parse_cache_control parse_imf_fixdate
    default_controller 1000 plain_request stale_allowed_response
  = Ok (plain_request, the_response).
Proof.
  apply (construct_stale_allowed parse_cache_control parse_imf_fixdate
           default_controller 1000 plain_request stale_allowed_response 100 1000);
    vm_compute; reflexivity.
Defined.

Lemma construct_outcomes_witness :
  must_revalidate (parse_cache_control
    (extract_header_values_decoded (response_headers must_revalidate_response)
       "Cache-Control" false)) = true.
Proof.
  apply (proj2 (construct_outcomes parse_cache_control parse_imf_fixdate
                  default_controller 50 plain_request must_revalidate_response
                  {| request_method := "GET";
                     request_headers :=
                       [("Host", "example.org"); ("If-Unmodified-Since", epoch);
                        ("If-None-Match", "v1")] |})).
  vm_compute. reflexivity.
Defined.

Lemma construct_returns_request_only_for_no_cache_witness :
  no_cache (parse_cache_control
    (extract_header_values_decoded (response_headers no_cache_response)
       "Cache-Control" false)) = true.
Proof.
  apply (construct_returns_request_only_for_no_cache parse_cache_control
           parse_imf_fixdate default_controller 150 plain_request no_cache_response
           {| request_method := "GET";
              request_headers := [("Host", "example.org"); ("If-None-Match", "v1")] |}).
  vm_compute. reflexivity.
Defined.

Lemma handle_validation_response_cases_witness :
  handle_validation_response default_controller must_revalidate_response ok_response
    = ok_response /\
  response_status
    (handle_validation_response default_controller ok_response not_modified_response)
    = 200.
Proof.
  split.
  - apply (proj1 (handle_validation_response_cases default_controller
                    must_revalidate_response ok_response)).
    simpl. lia.
  - apply (proj2 (handle_validation_response_cases default_controller
                    ok_response not_modified_response)).
    reflexivity.
Defined.

Lemma get_updated_headers_new_values_win_witness :
  In "v2" (extract_header_values [("etag", "v2")] "ETag" false) \/
  (extract_header_values [("etag", "v2")] "ETag" false = [] /\
   In "v2" (extract_header_values stored_headers "ETag" false)).
Proof.
  apply (get_updated_headers_new_values_win default_controller stored_headers
           [("etag", "v2")] "ETag" "v2").
  vm_compute. left. reflexivity.
Defined.

Lemma get_updated_headers_keeps_new_witness :
  In ("etag", "v2") (get_updated_headers default_controller stored_headers [("etag", "v2")]).
Proof.
  apply get_updated_headers_keeps_new.
  - left. reflexivity.
  - vm_compute. reflexivity.
Defined.

Lemma get_updated_headers_keeps_unmatched_witness :
  In ("X-Custom", "1")
    (get_updated_headers default_controller stored_headers [("etag", "v2")]).
Proof.
  apply get_updated_headers_keeps_unmatched.
  - right. right. left. reflexivity.
  - vm_compute. reflexivity.
  - vm_compute. reflexivity.
Defined.

Lemma get_updated_headers_nothing_new_witness :
  get_updated_headers default_controller stored_headers [] =
  [("ETag", "v1"); ("X-Custom", "1")].
Proof.
  rewrite get_updated_headers_nothing_new.
  - vm_compute. reflexivity.
  - vm_compute. repeat constructor; simpl; intuition discriminate.
Defined.

(** The two spellings of one name both come out when the new headers
    spell it differently: the order theorem compares names as spelt. *)
Example get_updated_headers_order_example :
  get_updated_headers default_controller stored_headers [("etag", "v2"); ("Age", "3")] =
  [("ETag", "v2"); ("X-Custom", "1"); ("etag", "v2"); ("Age", "3")].
Proof. vm_compute. reflexivity. Qed.

Lemma get_updated_headers_order_witness :
  exists from_stored from_new,
    get_updated_headers default_controller stored_headers [("etag", "v2"); ("Age", "3")]
      = from_stored ++ from_new /\
    (forall item, In item from_stored -> In (fst item) (map fst stored_headers)) /\
    (forall item, In item from_new ->
       In (fst item) (map fst [("etag", "v2"); ("Age", "3")]) /\
       ~ In (fst item) (map fst stored_headers)).
Proof. apply get_updated_headers_order. Defined.

Lemma cacheable_status_codes_never_consulted_witness :
  is_cachable parse_cache_control (Controller_init None (Some [202])) plain_request
    {| response_status := 404; response_headers := [] |} = Ok true /\
  is_cachable parse_cache_control (Controller_init None (Some [202])) plain_request
    {| response_status := 202; response_headers := [] |} <> Ok true /\
  is_cachable parse_cache_control (Controller_init None (Some [202])) plain_request
    {| response_status := 202; response_headers := [] |} =
  is_cachable parse_cache_control (Controller_init None None) plain_request
    {| response_status := 202; response_headers := [] |}.
Proof.
  destruct (cacheable_status_codes_never_consulted parse_cache_control
              parse_imf_fixdate None (Some [202]) None)
    as (Hsame & _ & _ & _ & _ & _ & _ & _ & _ & _ & Hfixed).
  split; [| split].
  - apply (Hfixed (Controller_init None (Some [202])) plain_request
             {| response_status := 404; response_headers := [] |} "GET");
      try (vm_compute; reflexivity).
    + left. reflexivity.
    + cbn [response_status In]. do 7 right. left. reflexivity.
  - intros Hstored.
    apply (Hfixed (Controller_init None (Some [202])) plain_request
             {| response_status := 202; response_headers := [] |} "GET") in Hstored;
      try (vm_compute; reflexivity).
    + cbn [response_status In] in Hstored. intuition discriminate.
    + left. reflexivity.
  - apply Hsame.
Defined.
